(** * artifactory_api: a wrapper around ArtifactoryPath

    A shallow embedding of [src/artifactory_api.py] (class [Artifactory]) and
    the properties of its selection and download logic.

    The embedding follows the Python module method by method.  Exceptions are
    values of type [exn]; the methods run in a state-and-exception monad over
    the instance ([this]) and its surroundings ([env]): the remote server as
    seen through the client library, the logging output and the local
    filesystem. *)

From Stdlib Require Import Strings.String Strings.Ascii Strings.Byte.
From Stdlib Require Import Lists.List Arith.PeanoNat Lia.
From stdpp Require Import base option list strings gmap.

Local Open Scope string_scope.

(** ** Exceptions *)

(** The exception classes that the module, its call of the client
    constructor, [str.format] and the built-in [open] can raise here. *)
Inductive exn : Type :=
| Exception (msg : string)            (* [raise Exception(msg)] *)
| UnboundLocalError (var : string)    (* local variable read before assignment *)
| AttributeError (attr : string)      (* instance attribute not assigned yet *)
| KeyError (key : string)             (* [str.format]: unknown keyword field *)
| IndexError (idx : nat)              (* [str.format]: positional field out of range *)
| ValueError (msg : string)           (* [str.format]: malformed template *)
| TypeError (keyword : string)        (* a call got two values for one keyword *)
| OSError (path : string).            (* [open(path, "wb")] refused *)

Definition result (A : Type) : Type := exn + A.

(** ** [str.format] *)

Module PyStr.

(** Replacement fields are written [{name}] or [{index}]; [{{] and [}}]
    stand for literal braces.  Every argument in this module is a [str], so
    a field is replaced by the argument itself.  Conversions ([!r]), format
    specifications ([:spec]) and automatic numbering ([{}]) do not occur in
    the module's templates and are not modelled. *)

Definition is_digit (c : ascii) : bool :=
  let n := nat_of_ascii c in (48 <=? n)%nat && (n <=? 57)%nat.

Fixpoint all_digits (s : string) : bool :=
  match s with
  | EmptyString => true
  | String c s' => is_digit c && all_digits s'
  end.

Fixpoint digits_value (acc : nat) (s : string) : nat :=
  match s with
  | EmptyString => acc
  | String c s' => digits_value (10 * acc + (nat_of_ascii c - 48)) s'
  end.

Fixpoint kw_lookup (k : string) (kwargs : list (string * string)) : option string :=
  match kwargs with
  | [] => None
  | (k', v) :: rest => if String.eqb k k' then Some v else kw_lookup k rest
  end.

(** The value of one replacement field. *)
Definition get_field (field : string) (args : list string)
           (kwargs : list (string * string)) : result string :=
  match field with
  | EmptyString => inl (ValueError "automatic field numbering is not modelled")
  | _ =>
      if all_digits field then
        let i := digits_value 0 field in
        match nth_error args i with
        | Some v => inr v
        | None => inl (IndexError i)
        end
      else
        match kw_lookup field kwargs with
        | Some v => inr v
        | None => inl (KeyError field)
        end
  end.

Definition prepend (s : string) (r : result string) : result string :=
  match r with
  | inl e => inl e
  | inr t => inr (s ++ t)
  end.

Definition snoc (s : string) (c : ascii) : string := s ++ String c EmptyString.

(** One pass over the template.  [field] is [None] in literal text and
    [Some acc] inside braces, [acc] being the field name read so far. *)
Fixpoint format_from (field : option string) (tmpl : string)
         (args : list string) (kwargs : list (string * string)) : result string :=
  match field, tmpl with
  | None, EmptyString => inr EmptyString
  | None, String "{" (String "{" rest) =>
      prepend "{" (format_from None rest args kwargs)
  | None, String "}" (String "}" rest) =>
      prepend "}" (format_from None rest args kwargs)
  | None, String "{" EmptyString =>
      inl (ValueError "Single '{' encountered in format string")
  | None, String "{" rest => format_from (Some EmptyString) rest args kwargs
  | None, String "}" _ =>
      inl (ValueError "Single '}' encountered in format string")
  | None, String c rest =>
      prepend (String c EmptyString) (format_from None rest args kwargs)
  | Some _, EmptyString =>
      inl (ValueError "expected '}' before end of string")
  | Some acc, String "}" rest =>
      match get_field acc args kwargs with
      | inl e => inl e
      | inr v => prepend v (format_from None rest args kwargs)
      end
  | Some acc, String c rest => format_from (Some (snoc acc c)) rest args kwargs
  end.

(** [tmpl.format( *args, **kwargs)] *)
Definition format (tmpl : string) (args : list string)
           (kwargs : list (string * string)) : result string :=
  format_from None tmpl args kwargs.

End PyStr.

(** ** [os.path.join] (posixpath, two components) *)

Module os_path.

Fixpoint endswith_sep (s : string) : bool :=
  match s with
  | EmptyString => false
  | String c EmptyString => Ascii.eqb c "/"
  | String _ s' => endswith_sep s'
  end.

Definition startswith_sep (s : string) : bool :=
  match s with
  | String c _ => Ascii.eqb c "/"
  | EmptyString => false
  end.

Definition is_empty (s : string) : bool :=
  match s with EmptyString => true | _ => false end.

(** An absolute second component replaces the first; otherwise the two are
    joined by exactly one separator, unless the first is empty or already
    ends in one. *)
Definition join (a b : string) : string :=
  if startswith_sep b then b
  else if is_empty a || endswith_sep a then a ++ b
  else a ++ "/" ++ b.

End os_path.

(** ** The client library, as the module uses it *)

(** [ArtifactoryPath(url, auth=(user, password), *args, **kwargs)]: the
    client object.  Creating it contacts no server. *)
Record ArtifactoryPath : Type := {
  path_url : string;
  path_auth : string * string;
  path_args : list string;
  path_kwargs : list (string * string)
}.

(** Metadata returned by [stat()]; the module reads [mime_type] only. *)
Record ArtifactoryFileStat : Type := { mime_type : string }.

(** An entry yielded by enumerating the client: [name], [stat()] and the
    bytes that [open().read()] delivers. *)
Record ArtifactEntry : Type := {
  name : string;
  stat : ArtifactoryFileStat;
  open : list byte
}.

(** ** The instance *)

(** The attributes assigned by [__init__].  [client] is [None] until its
    assignment, the last statement of [__init__]. *)
Record Artifactory : Type := {
  url : string;
  repo : string;
  group : string;
  artifact : string;
  version : string;
  username : string;
  password : string;
  client : option ArtifactoryPath
}.

(** Class attribute. *)
Definition TMP_DIR : string := "/tmp".

(** ** Logging *)

Inductive level : Type := DEBUG | INFO.

Definition level_value (l : level) : nat :=
  match l with DEBUG => 10 | INFO => 20 end.

(** [log.basicConfig(level=logging.INFO)] at import time. *)
Definition root_level : level := INFO.

(** ** The surroundings of an instance *)

Record World : Type := {
  (** what the server lists under a client's URL, in listing order *)
  remote : ArtifactoryPath -> list ArtifactEntry;
  (** client objects constructed so far, most recent first *)
  created : list ArtifactoryPath;
  (** enumerations performed so far, most recent first *)
  listed : list ArtifactoryPath;
  (** records emitted by the logger, most recent first *)
  log_out : list (level * string);
  (** local files *)
  files : gmap string (list byte);
  (** whether [open(path, "wb")] succeeds *)
  writable : string -> bool
}.

Record State : Type := { this : Artifactory; env : World }.

(** ** State and exceptions *)

Definition M (A : Type) : Type := State -> result A * State.

Definition ret {A} (a : A) : M A := fun s => (inr a, s).

Definition bind {A B} (m : M A) (k : A -> M B) : M B :=
  fun s =>
    match m s with
    | (inl e, s') => (inl e, s')
    | (inr a, s') => k a s'
    end.

Definition raise {A} (e : exn) : M A := fun s => (inl e, s).

Definition lift {A} (r : result A) : M A := fun s => (r, s).

Definition get_this : M Artifactory := fun s => (inr (this s), s).

Definition update_this (f : Artifactory -> Artifactory) : M unit :=
  fun s => (inr tt, {| this := f (this s); env := env s |}).

Definition update_env (f : World -> World) : M unit :=
  fun s => (inr tt, {| this := this s; env := f (env s) |}).

Declare Scope py_scope.
Delimit Scope py_scope with py.
Notation "x <- m ;; k" := (bind m (fun x => k))
  (at level 100, m at next level, right associativity) : py_scope.
Notation "m ;;; k" := (bind m (fun _ => k))
  (at level 100, right associativity) : py_scope.
Local Open Scope py_scope.

(** *** Attribute assignment: [self.attr = v] *)

Definition set_url (v : string) (o : Artifactory) : Artifactory :=
  {| url := v; repo := repo o; group := group o; artifact := artifact o;
     version := version o; username := username o; password := password o;
     client := client o |}.
Definition set_repo (v : string) (o : Artifactory) : Artifactory :=
  {| url := url o; repo := v; group := group o; artifact := artifact o;
     version := version o; username := username o; password := password o;
     client := client o |}.
Definition set_group (v : string) (o : Artifactory) : Artifactory :=
  {| url := url o; repo := repo o; group := v; artifact := artifact o;
     version := version o; username := username o; password := password o;
     client := client o |}.
Definition set_artifact (v : string) (o : Artifactory) : Artifactory :=
  {| url := url o; repo := repo o; group := group o; artifact := v;
     version := version o; username := username o; password := password o;
     client := client o |}.
Definition set_version (v : string) (o : Artifactory) : Artifactory :=
  {| url := url o; repo := repo o; group := group o; artifact := artifact o;
     version := v; username := username o; password := password o;
     client := client o |}.
Definition set_username (v : string) (o : Artifactory) : Artifactory :=
  {| url := url o; repo := repo o; group := group o; artifact := artifact o;
     version := version o; username := v; password := password o;
     client := client o |}.
Definition set_password (v : string) (o : Artifactory) : Artifactory :=
  {| url := url o; repo := repo o; group := group o; artifact := artifact o;
     version := version o; username := username o; password := v;
     client := client o |}.
Definition set_client (v : ArtifactoryPath) (o : Artifactory) : Artifactory :=
  {| url := url o; repo := repo o; group := group o; artifact := artifact o;
     version := version o; username := username o; password := password o;
     client := Some v |}.

(** *** Effects on the surroundings *)

Definition with_created (c : ArtifactoryPath) (w : World) : World :=
  {| remote := remote w; created := c :: created w; listed := listed w;
     log_out := log_out w; files := files w; writable := writable w |}.

Definition with_listed (c : ArtifactoryPath) (w : World) : World :=
  {| remote := remote w; created := created w; listed := c :: listed w;
     log_out := log_out w; files := files w; writable := writable w |}.

Definition with_log (r : level * string) (w : World) : World :=
  {| remote := remote w; created := created w; listed := listed w;
     log_out := r :: log_out w; files := files w; writable := writable w |}.

Definition with_file (p : string) (data : list byte) (w : World) : World :=
  {| remote := remote w; created := created w; listed := listed w;
     log_out := log_out w; files := <[p := data]> (files w);
     writable := writable w |}.

(** [log.debug(msg)] and [log.info(msg)]: a record below the root level is
    dropped. *)
Definition log_at (l : level) (msg : string) : M unit :=
  if (level_value root_level <=? level_value l)%nat
  then update_env (with_log (l, msg))
  else ret tt.

(** [ArtifactoryPath(url, auth=auth, *args, **kwargs)].  The call names the
    keyword [auth] itself, so a [kwargs] that carries the key [auth] as well
    gives that keyword two values: the call raises [TypeError] and no client
    is made. *)
Definition new_ArtifactoryPath (u : string) (auth : string * string)
           (args : list string) (kwargs : list (string * string)) : M ArtifactoryPath :=
  match PyStr.kw_lookup "auth" kwargs with
  | Some _ => raise (TypeError "auth")
  | None =>
      let c := {| path_url := u; path_auth := auth;
                  path_args := args; path_kwargs := kwargs |} in
      update_env (with_created c) ;;; ret c
  end.

(** [self.client]: fails while the attribute is not assigned. *)
Definition get_client : M ArtifactoryPath :=
  self <- get_this ;;
  match client self with
  | Some c => ret c
  | None => raise (AttributeError "client")
  end.

(** [list(c)]: one enumeration of the entries under the client's URL. *)
Definition list_entries (c : ArtifactoryPath) : M (list ArtifactEntry) :=
  fun s => (inr (remote (env s) c),
            {| this := this s; env := with_listed c (env s) |}).

(** [open(path, "wb")]: creates or truncates the file. *)
Definition open_wb (p : string) : M string :=
  fun s =>
    if writable (env s) p
    then (inr p, {| this := this s; env := with_file p [] (env s) |})
    else (inl (OSError p), s).

(** [out.write(data)] on a handle from [open_wb]: appends at the end of what
    has been written since the file was opened. *)
Definition write (out : string) (data : list byte) : M unit :=
  update_env (fun w => with_file out (default [] (files w !! out) ++ data) w).

(** ** [for x in xs: if cond(x): v = x; break]

    The value bound to [v] when the loop ends: [Some x] for the first [x]
    that satisfies [cond], [None] (never assigned) when the loop runs to
    exhaustion. *)
Fixpoint for_break {A} (cond : A -> bool) (xs : list A) : option A :=
  match xs with
  | [] => None
  | x :: xs' => if cond x then Some x else for_break cond xs'
  end.

(** Reading a local variable. *)
Definition read_local {A} (var : string) (v : option A) : M A :=
  match v with
  | Some a => ret a
  | None => raise (UnboundLocalError var)
  end.

(** ** Class [Artifactory] *)

(** [_construct_url(self)] *)
Definition _construct_url : M string :=
  self <- get_this ;;
  u <- lift (PyStr.format "{url}/artifactory/{repo}/{group}/{artifact}/{version}" []
                 [("url", url self); ("repo", repo self); ("group", group self);
                  ("artifact", artifact self); ("version", version self)]) ;;
  msg <- lift (PyStr.format "Url constructed to {0}" [u] []) ;;
  log_at DEBUG msg ;;;
  ret u.

(** [__init__(self, url, repo="", group="", artifact="", version="",
    username="", password="", *args, **kwargs)].  A parameter with a default
    is [None] when the caller omits it. *)
Definition __init__ (url' : string)
           (repo' group' artifact' version' username' password' : option string)
           (args : list string) (kwargs : list (string * string)) : M unit :=
  update_this (set_url url') ;;;
  update_this (set_repo (default "" repo')) ;;;
  update_this (set_group (default "" group')) ;;;
  update_this (set_artifact (default "" artifact')) ;;;
  update_this (set_version (default "" version')) ;;;
  update_this (set_username (default "" username')) ;;;
  update_this (set_password (default "" password')) ;;;
  u <- _construct_url ;;
  self <- get_this ;;
  c <- new_ArtifactoryPath u (username self, password self) args kwargs ;;
  update_this (set_client c).

(** [get_by_name(self, artifact_name)] *)
Definition get_by_name (artifact_name : string) : M ArtifactEntry :=
  c <- get_client ;;
  entries <- list_entries c ;;
  match for_break (fun artifact => String.eqb (name artifact) artifact_name)
                  (rev entries) with
  | Some matched_artifact =>
      msg <- lift (PyStr.format "Found artifact {0}" [name matched_artifact] []) ;;
      log_at INFO msg ;;;
      ret matched_artifact
  | None =>
      msg <- lift (PyStr.format "Artifact {0} not found." [artifact_name] []) ;;
      raise (Exception msg)
  end.

(** [get_latest(self, mime_type="application/java-archive")] *)
Definition get_latest (mime_type' : option string) : M ArtifactEntry :=
  let mime_type' := default "application/java-archive" mime_type' in
  c <- get_client ;;
  entries <- list_entries c ;;
  let latest_artifact :=
    for_break (fun artifact => String.eqb (mime_type (stat artifact)) mime_type')
              (rev entries) in
  a <- read_local "latest_artifact" latest_artifact ;;
  msg <- lift (PyStr.format "Found latest artifact {0}" [name a] []) ;;
  log_at INFO msg ;;;
  a <- read_local "latest_artifact" latest_artifact ;;
  ret a.

(** [download(self, artifact_name="", path="")] *)
Definition download (artifact_name path : option string) : M ArtifactEntry :=
  let artifact_name := default "" artifact_name in
  let path := default "" path in
  artifact <- (if os_path.is_empty artifact_name
               then get_latest None
               else get_by_name artifact_name) ;;
  let path := if os_path.is_empty path then TMP_DIR else path in
  let artifactory_path := os_path.join path (name artifact) in
  msg <- lift (PyStr.format "Downloading artifact {0} to {1}"
                 [name artifact; artifactory_path] []) ;;
  log_at INFO msg ;;;
  let fl := open artifact in
  out <- open_wb artifactory_path ;;
  write out fl ;;;
  ret artifact.

(** [Artifactory(url, ...)]: a fresh instance, then [__init__]. *)
Definition object_new : Artifactory :=
  {| url := ""; repo := ""; group := ""; artifact := ""; version := "";
     username := ""; password := ""; client := None |}.

Definition Artifactory_new (url' : string)
           (repo' group' artifact' version' username' password' : option string)
           (args : list string) (kwargs : list (string * string)) (w : World)
  : result unit * State :=
  __init__ url' repo' group' artifact' version' username' password' args kwargs
           {| this := object_new; env := w |}.

(** ** Vocabulary for the statements *)

(** The state after one enumeration through client [c]. *)
Definition after_listing (c : ArtifactoryPath) (s : State) : State :=
  {| this := this s; env := with_listed c (env s) |}.

(** The state after one record emitted at level INFO. *)
Definition after_info (msg : string) (s : State) : State :=
  {| this := this s; env := with_log (INFO, msg) (env s) |}.

(** The state after [data] has been stored at [p]. *)
Definition after_store (p : string) (data : list byte) (s : State) : State :=
  {| this := this s; env := with_file p data (env s) |}.

(** The selection predicates of the two scans. *)
Definition named (x : string) (a : ArtifactEntry) : bool := String.eqb (name a) x.
Definition typed (m : string) (a : ArtifactEntry) : bool :=
  String.eqb (mime_type (stat a)) m.

Definition default_mime_type : string := "application/java-archive".

(** The directory [download] writes to. *)
Definition destination_dir (path : option string) : string :=
  if os_path.is_empty (default "" path) then TMP_DIR else default "" path.

(** What [download] does with the entry it has selected. *)
Definition store (path : option string) (a : ArtifactEntry) : M ArtifactEntry :=
  let dest := os_path.join (destination_dir path) (name a) in
  log_at INFO ("Downloading artifact " ++ name a ++ " to " ++ dest) ;;;
  out <- open_wb dest ;;
  write out (open a) ;;;
  ret a.

(** The selection step of [download]. *)
Definition select (artifact_name : option string) : M ArtifactEntry :=
  if os_path.is_empty (default "" artifact_name)
  then get_latest None
  else get_by_name (default "" artifact_name).

(** What the constructor is expected to build from its arguments. *)
Section built.

Variables (url' : string)
          (repo' group' artifact' version' username' password' : option string)
          (args : list string) (kwargs : list (string * string)).

Definition listing_url : string :=
  url' ++ "/artifactory/" ++ default "" repo' ++ "/" ++ default "" group' ++ "/"
       ++ default "" artifact' ++ "/" ++ default "" version'.

Definition built_client : ArtifactoryPath :=
  {| path_url := listing_url;
     path_auth := (default "" username', default "" password');
     path_args := args; path_kwargs := kwargs |}.

Definition built_instance : Artifactory :=
  {| url := url'; repo := default "" repo'; group := default "" group';
     artifact := default "" artifact'; version := default "" version';
     username := default "" username'; password := default "" password';
     client := Some built_client |}.

(** The instance as [__init__] leaves it when the client call raises. *)
Definition unfinished_instance : Artifactory :=
  {| url := url'; repo := default "" repo'; group := default "" group';
     artifact := default "" artifact'; version := default "" version';
     username := default "" username'; password := default "" password';
     client := None |}.

End built.

(** The calls a user can make on an instance. *)
Inductive call : Type :=
| Download (artifact_name path : option string)
| GetByName (artifact_name : string)
| GetLatest (mime_type' : option string).

Definition run_call (op : call) (s : State) : State :=
  match op with
  | Download n p => snd (download n p s)
  | GetByName n => snd (get_by_name n s)
  | GetLatest m => snd (get_latest m s)
  end.

(** A sequence of calls, whether each returns or raises. *)
Definition run_calls (ops : list call) (s : State) : State :=
  fold_left (fun s op => run_call op s) ops s.

Definition returned {A} (r : result A) : bool :=
  match r with inr _ => true | inl _ => false end.

(** Every [download] of the sequence returns; the other calls may return or
    raise. *)
Fixpoint downloads_return (ops : list call) (s : State) : bool :=
  match ops with
  | [] => true
  | op :: ops' =>
      match op with
      | Download n p => returned (fst (download n p s))
      | _ => true
      end && downloads_return ops' (run_call op s)
  end.

(** Either selection leaves the instance, the server, the files and the
    set of clients alone; it enumerates through the instance's client, at
    most once. *)
Record selection_frame (st st' : State) : Prop := {
  frame_this : this st' = this st;
  frame_remote : remote (env st') = remote (env st);
  frame_created : created (env st') = created (env st);
  frame_files : files (env st') = files (env st);
  frame_writable : writable (env st') = writable (env st);
  frame_listed :
    listed (env st') = listed (env st)
    \/ exists c, client (this st) = Some c /\ listed (env st') = c :: listed (env st)
}.

(** A call leaves the instance's attributes alone, constructs no client,
    and enumerates only through the instance's own client. *)
Record call_frame (st st' : State) : Prop := {
  kept_this : this st' = this st;
  kept_created : created (env st') = created (env st);
  kept_listed :
    exists l, listed (env st') = (l ++ listed (env st))%list
              /\ forall c, c ∈ l -> client (this st) = Some c
}.

(** ** Sample data *)

Module Demo.

Definition jar : string := "application/java-archive".

Definition jar_old : ArtifactEntry :=
  {| name := "api.jar"; stat := {| mime_type := jar |}; open := ["1"%byte] |}.
Definition pom : ArtifactEntry :=
  {| name := "api.pom"; stat := {| mime_type := "application/x-maven-pom+xml" |};
     open := ["p"%byte] |}.
Definition jar_new : ArtifactEntry :=
  {| name := "api.jar"; stat := {| mime_type := jar |}; open := ["2"%byte] |}.
Definition metadata : ArtifactEntry :=
  {| name := "maven-metadata.xml"; stat := {| mime_type := "application/xml" |};
     open := ["m"%byte] |}.
Definition unnamed : ArtifactEntry :=
  {| name := ""; stat := {| mime_type := jar |}; open := ["u"%byte] |}.

(** A server with three folders: one with several builds, one with no
    archive at all, one whose last entry has an empty name. *)
Definition server (c : ArtifactoryPath) : list ArtifactEntry :=
  if String.eqb (path_url c) "https://h/artifactory/r/g/a/v"
  then [jar_old; pom; jar_new; metadata]
  else if String.eqb (path_url c) "https://h/artifactory/r/g/a/empty"
  then [metadata]
  else if String.eqb (path_url c) "https://h/artifactory/r/g/a/odd"
  then [jar_old; unnamed]
  else [].

Definition world : World :=
  {| remote := server; created := []; listed := []; log_out := [];
     files := {[ "/tmp/out/api.jar" := ["0"%byte; "0"%byte] ]};
     writable := fun _ => true |}.

Definition instance (version' : string) : State :=
  snd (Artifactory_new "https://h" (Some "r") (Some "g") (Some "a") (Some version')
         None None [] [] world).

Definition client_of (version' : string) : ArtifactoryPath :=
  {| path_url := "https://h/artifactory/r/g/a/" ++ version'; path_auth := ("", "");
     path_args := []; path_kwargs := [] |}.

End Demo.

(** A second server: a folder that lists the entries of [Demo]'s odd folder
    in the other order, a folder whose entry has an absolute name, and a
    directory that cannot be written to. *)
Module Sample.

Definition absolute : ArtifactEntry :=
  {| name := "/srv/app.jar"; stat := {| mime_type := Demo.jar |}; open := ["a"%byte] |}.

Definition server (c : ArtifactoryPath) : list ArtifactEntry :=
  if String.eqb (path_url c) "https://h/artifactory/r/g/a/odd"
  then [Demo.unnamed; Demo.jar_old]
  else if String.eqb (path_url c) "https://h/artifactory/r/g/a/abs"
  then [absolute]
  else if String.eqb (path_url c) "https://h/artifactory/r/g/a/v"
  then [Demo.pom; Demo.jar_new]
  else [].

Definition world : World :=
  {| remote := server; created := []; listed := []; log_out := [];
     files := ∅;
     writable := fun p => negb (String.eqb p "/readonly/api.jar") |}.

Definition instance (version' : string) : State :=
  snd (Artifactory_new "https://h" (Some "r") (Some "g") (Some "a") (Some version')
         None None [] [] world).

End Sample.

(** * Properties *)

(** ** Strings and templates *)

Lemma append_empty_r (s : string) : s ++ "" = s.
Proof.
  induction s as [|c s IH]; [reflexivity|].
  change (String c (s ++ "") = String c s). by rewrite IH.
Qed.

Lemma is_empty_true (s : string) : os_path.is_empty s = true <-> s = "".
Proof. destruct s; simpl; split; congruence. Qed.

Lemma is_empty_false (s : string) : os_path.is_empty s = false <-> s <> "".
Proof. destruct s; simpl; split; congruence. Qed.

Section templates.

Lemma format_found (x : string) :
  PyStr.format "Found artifact {0}" [x] [] = inr ("Found artifact " ++ x).
Proof.
  transitivity (inr (A := exn) ("Found artifact " ++ (x ++ ""))); [reflexivity|].
  by rewrite append_empty_r.
Qed.

Lemma format_not_found (x : string) :
  PyStr.format "Artifact {0} not found." [x] []
  = inr ("Artifact " ++ x ++ " not found.").
Proof. reflexivity. Qed.

Lemma format_found_latest (x : string) :
  PyStr.format "Found latest artifact {0}" [x] []
  = inr ("Found latest artifact " ++ x).
Proof.
  transitivity (inr (A := exn) ("Found latest artifact " ++ (x ++ ""))); [reflexivity|].
  by rewrite append_empty_r.
Qed.

Lemma format_downloading (x p : string) :
  PyStr.format "Downloading artifact {0} to {1}" [x; p] []
  = inr ("Downloading artifact " ++ x ++ " to " ++ p).
Proof.
  transitivity (inr (A := exn) ("Downloading artifact " ++ x ++ " to " ++ (p ++ "")));
    [reflexivity|].
  by rewrite append_empty_r.
Qed.

Lemma format_constructed (u : string) :
  PyStr.format "Url constructed to {0}" [u] [] = inr ("Url constructed to " ++ u).
Proof.
  transitivity (inr (A := exn) ("Url constructed to " ++ (u ++ ""))); [reflexivity|].
  by rewrite append_empty_r.
Qed.

(** The listing URL template, for arbitrary field values: the values are
    inserted as they are, whatever characters they contain. *)
Lemma format_listing_url (u r g a v : string) :
  PyStr.format "{url}/artifactory/{repo}/{group}/{artifact}/{version}" []
    [("url", u); ("repo", r); ("group", g); ("artifact", a); ("version", v)]
  = inr (u ++ "/artifactory/" ++ r ++ "/" ++ g ++ "/" ++ a ++ "/" ++ v).
Proof.
  transitivity
    (inr (A := exn)
         (u ++ "/artifactory/" ++ r ++ "/" ++ g ++ "/" ++ a ++ "/" ++ (v ++ "")));
    [reflexivity|].
  by rewrite append_empty_r.
Qed.

End templates.

(** ** The scan: reverse, then first match *)

Section scan.

Context {A : Type} (cond : A -> bool).
Local Open Scope list_scope.

Lemma for_break_app_l (xs ys : list A) (x : A) :
  for_break cond xs = Some x -> for_break cond (xs ++ ys) = Some x.
Proof.
  induction xs as [|a xs IH]; simpl; [discriminate|].
  destruct (cond a); [done | exact IH].
Qed.

Lemma for_break_app_r (xs ys : list A) :
  for_break cond xs = None -> for_break cond (xs ++ ys) = for_break cond ys.
Proof.
  induction xs as [|a xs IH]; simpl; [done|].
  destruct (cond a); [discriminate | exact IH].
Qed.

Lemma for_break_None (xs : list A) :
  for_break cond xs = None <-> (forall x, x ∈ xs -> cond x = false).
Proof.
  induction xs as [|a xs IH]; simpl.
  - split; [intros _ x Hx; by apply elem_of_nil in Hx | done].
  - destruct (cond a) eqn:Ha.
    + split; [discriminate|]. intros H. specialize (H a (list_elem_of_here _ _)).
      congruence.
    + rewrite IH. split.
      * intros H x Hx. apply elem_of_cons in Hx as [->|Hx]; auto.
      * intros H x Hx. apply H. by apply list_elem_of_further.
Qed.

Lemma for_break_Some (xs : list A) (x : A) :
  for_break cond xs = Some x ->
  exists pre post, xs = pre ++ x :: post /\ cond x = true
                   /\ (forall y, y ∈ pre -> cond y = false).
Proof.
  induction xs as [|a xs IH]; simpl; [discriminate|].
  destruct (cond a) eqn:Ha.
  - intros [= ->]. exists [], xs. repeat split; [done|].
    intros y Hy. by apply elem_of_nil in Hy.
  - intros H. destruct (IH H) as (pre & post & -> & Hx & Hpre).
    exists (a :: pre), post. repeat split; [done|].
    intros y Hy. apply elem_of_cons in Hy as [->|Hy]; auto.
Qed.

(** Scanning the reversed listing finds the match closest to the end of
    the listing. *)
Lemma for_break_rev_last (pre post : list A) (x : A) :
  cond x = true -> (forall y, y ∈ post -> cond y = false) ->
  for_break cond (rev (pre ++ x :: post)) = Some x.
Proof.
  intros Hx Hpost.
  rewrite rev_app_distr. simpl. rewrite <- app_assoc. simpl.
  rewrite for_break_app_r.
  - simpl. by rewrite Hx.
  - apply for_break_None. intros y Hy. apply Hpost.
    apply list_elem_of_In. apply in_rev. by apply list_elem_of_In.
Qed.

Lemma for_break_rev_None (xs : list A) :
  (forall y, y ∈ xs -> cond y = false) -> for_break cond (rev xs) = None.
Proof.
  intros H. apply for_break_None. intros y Hy. apply H.
  apply list_elem_of_In. apply in_rev. by apply list_elem_of_In.
Qed.

(** A listing with a match splits at its last match. *)
Lemma last_match (xs : list A) :
  (exists x, x ∈ xs /\ cond x = true) ->
  exists pre x post, xs = pre ++ x :: post /\ cond x = true
                     /\ (forall y, y ∈ post -> cond y = false).
Proof.
  intros (x & Hin & Hx).
  destruct (for_break cond (rev xs)) as [z|] eqn:Hz.
  - apply for_break_Some in Hz as (pre & post & Hrev & Hz & Hpre).
    exists (rev post), z, (rev pre). split; [|split; [done|]].
    + rewrite <- (rev_involutive xs), Hrev, rev_app_distr. simpl.
      by rewrite <- app_assoc.
    + intros y Hy. apply Hpre.
      apply list_elem_of_In. apply in_rev. by apply list_elem_of_In.
  - exfalso. pose proof (proj1 (for_break_None _) Hz x) as H.
    rewrite H in Hx; [discriminate|].
    apply list_elem_of_In. rewrite <- in_rev. by apply list_elem_of_In.
Qed.

End scan.

(** ** Selection *)

Section selection.

Variables (st : State) (c : ArtifactoryPath).
Hypothesis Hclient : client (this st) = Some c.

Lemma get_client_ok : get_client st = (inr c, st).
Proof. unfold get_client, bind, get_this. simpl. by rewrite Hclient. Qed.

(** [get_by_name], by the outcome of its scan. *)
Lemma get_by_name_scan (x : string) :
  get_by_name x st =
  match for_break (named x) (rev (remote (env st) c)) with
  | Some a => (inr a, after_info ("Found artifact " ++ name a) (after_listing c st))
  | None => (inl (Exception ("Artifact " ++ x ++ " not found.")), after_listing c st)
  end.
Proof.
  unfold get_by_name, bind. rewrite get_client_ok.
  unfold list_entries at 1. cbv beta iota.
  fold (named x). fold (after_listing c st).
  destruct (for_break (named x) (rev (remote (env st) c))) as [a|].
  - rewrite format_found. reflexivity.
  - rewrite format_not_found. reflexivity.
Qed.

(** [get_latest], by the outcome of its scan. *)
Lemma get_latest_scan (m : option string) :
  get_latest m st =
  match for_break (typed (default default_mime_type m)) (rev (remote (env st) c)) with
  | Some a =>
      (inr a, after_info ("Found latest artifact " ++ name a) (after_listing c st))
  | None => (inl (UnboundLocalError "latest_artifact"), after_listing c st)
  end.
Proof.
  unfold get_latest, bind. rewrite get_client_ok.
  unfold list_entries at 1. cbv beta iota zeta.
  fold default_mime_type. fold (typed (default default_mime_type m)).
  fold (after_listing c st).
  destruct (for_break (typed (default default_mime_type m)) (rev (remote (env st) c)))
    as [a|].
  - unfold read_local, ret, lift. rewrite format_found_latest. reflexivity.
  - reflexivity.
Qed.

End selection.

Lemma get_by_name_no_client (st : State) (x : string) :
  client (this st) = None -> get_by_name x st = (inl (AttributeError "client"), st).
Proof.
  intros H. unfold get_by_name, bind, get_client, bind, get_this. simpl. by rewrite H.
Qed.

Lemma get_latest_no_client (st : State) (m : option string) :
  client (this st) = None -> get_latest m st = (inl (AttributeError "client"), st).
Proof.
  intros H. unfold get_latest, bind, get_client, bind, get_this. simpl. by rewrite H.
Qed.

(** C2: when the listing has an entry named [x], [get_by_name x] returns an
    entry named [x], and it is the one closest to the end of the listing:
    no entry after it bears that name. *)
Theorem get_by_name_returns_last_named
        (st : State) (c : ArtifactoryPath) (x : string) :
  client (this st) = Some c ->
  (exists a, a ∈ remote (env st) c /\ name a = x) ->
  exists pre a post,
    remote (env st) c = (pre ++ a :: post)%list
    /\ name a = x
    /\ (forall b, b ∈ post -> name b <> x)
    /\ get_by_name x st
       = (inr a, after_info ("Found artifact " ++ x) (after_listing c st)).
Proof.
  intros Hc (a0 & Hin & Hname).
  destruct (last_match (named x) (remote (env st) c)) as (pre & a & post & Hl & Ha & Hpost).
  { exists a0. split; [done|]. unfold named. by apply String.eqb_eq. }
  apply String.eqb_eq in Ha.
  exists pre, a, post. repeat split; try done.
  - intros b Hb. apply String.eqb_neq. by apply Hpost.
  - rewrite (get_by_name_scan st c Hc), Hl, for_break_rev_last.
    + by rewrite Ha.
    + unfold named. by apply String.eqb_eq.
    + exact Hpost.
Qed.

Lemma get_by_name_returns_last_named_witness :
  exists pre a post,
    remote (env (Demo.instance "v")) (Demo.client_of "v") = (pre ++ a :: post)%list
    /\ name a = "api.jar"
    /\ (forall b, b ∈ post -> name b <> "api.jar")
    /\ get_by_name "api.jar" (Demo.instance "v")
       = (inr a, after_info ("Found artifact " ++ "api.jar")
                   (after_listing (Demo.client_of "v") (Demo.instance "v"))).
Proof.
  apply (get_by_name_returns_last_named (Demo.instance "v") (Demo.client_of "v") "api.jar").
  - reflexivity.
  - exists Demo.jar_old. split; [|reflexivity].
    apply list_elem_of_In. simpl. auto.
Defined.

(** The entry returned in the sample folder is the later of the two builds. *)
Example get_by_name_picks_later_build :
  fst (get_by_name "api.jar" (Demo.instance "v")) = inr Demo.jar_new.
Proof. reflexivity. Qed.

(** C3: when no entry of the listing is named [x] (the empty listing
    included), [get_by_name x] raises [Exception], whose message carries
    [x]; nothing is logged. *)
Theorem get_by_name_not_found (st : State) (c : ArtifactoryPath) (x : string) :
  client (this st) = Some c ->
  (forall a, a ∈ remote (env st) c -> name a <> x) ->
  get_by_name x st
  = (inl (Exception ("Artifact " ++ x ++ " not found.")), after_listing c st).
Proof.
  intros Hc Hno.
  rewrite (get_by_name_scan st c Hc), for_break_rev_None; [done|].
  intros a Ha. apply String.eqb_neq. by apply Hno.
Qed.

Lemma get_by_name_not_found_witness :
  get_by_name "nonexistent" (Demo.instance "none")
  = (inl (Exception ("Artifact " ++ "nonexistent" ++ " not found.")),
     after_listing (Demo.client_of "none") (Demo.instance "none")).
Proof.
  apply (get_by_name_not_found (Demo.instance "none") (Demo.client_of "none") "nonexistent").
  - reflexivity.
  - intros a Ha. apply list_elem_of_In in Ha. destruct Ha.
Defined.

(** C4: when the listing has an entry of MIME type [m], [get_latest m]
    returns an entry of that type, the one closest to the end of the
    listing. *)
Theorem get_latest_returns_last_typed
        (st : State) (c : ArtifactoryPath) (m : string) :
  client (this st) = Some c ->
  (exists a, a ∈ remote (env st) c /\ mime_type (stat a) = m) ->
  exists pre a post,
    remote (env st) c = (pre ++ a :: post)%list
    /\ mime_type (stat a) = m
    /\ (forall b, b ∈ post -> mime_type (stat b) <> m)
    /\ get_latest (Some m) st
       = (inr a, after_info ("Found latest artifact " ++ name a) (after_listing c st)).
Proof.
  intros Hc (a0 & Hin & Hm).
  destruct (last_match (typed m) (remote (env st) c)) as (pre & a & post & Hl & Ha & Hpost).
  { exists a0. split; [done|]. unfold typed. by apply String.eqb_eq. }
  exists pre, a, post. repeat split; try done.
  - by apply String.eqb_eq.
  - intros b Hb. apply String.eqb_neq. by apply Hpost.
  - rewrite (get_latest_scan st c Hc). simpl default.
    by rewrite Hl, for_break_rev_last.
Qed.

Lemma get_latest_returns_last_typed_witness :
  exists pre a post,
    remote (env (Demo.instance "v")) (Demo.client_of "v") = (pre ++ a :: post)%list
    /\ mime_type (stat a) = Demo.jar
    /\ (forall b, b ∈ post -> mime_type (stat b) <> Demo.jar)
    /\ get_latest (Some Demo.jar) (Demo.instance "v")
       = (inr a, after_info ("Found latest artifact " ++ name a)
                   (after_listing (Demo.client_of "v") (Demo.instance "v"))).
Proof.
  apply (get_latest_returns_last_typed (Demo.instance "v") (Demo.client_of "v") Demo.jar).
  - reflexivity.
  - exists Demo.jar_old. split; [|reflexivity].
    apply list_elem_of_In. simpl. auto.
Defined.

Example get_latest_picks_later_build :
  fst (get_latest None (Demo.instance "v")) = inr Demo.jar_new.
Proof. reflexivity. Qed.

(** With no entry of the requested type the local variable is never
    assigned, and reading it for the log message raises. *)
Lemma get_latest_no_match (st : State) (c : ArtifactoryPath) (m : option string) :
  client (this st) = Some c ->
  (forall a, a ∈ remote (env st) c -> mime_type (stat a) <> default default_mime_type m) ->
  get_latest m st = (inl (UnboundLocalError "latest_artifact"), after_listing c st).
Proof.
  intros Hc Hno.
  rewrite (get_latest_scan st c Hc), for_break_rev_None; [done|].
  intros a Ha. apply String.eqb_neq. by apply Hno.
Qed.

(** C1: on a folder that holds no archive, [get_latest] raises
    [UnboundLocalError] for its own local variable, where [get_by_name]
    on the same folder raises its [Exception]. *)
Theorem get_latest_unbound_on_no_match :
  fst (get_latest None (Demo.instance "empty")) = inl (UnboundLocalError "latest_artifact")
  /\ fst (get_by_name "api.jar" (Demo.instance "empty"))
     = inl (Exception "Artifact api.jar not found.").
Proof. split; reflexivity. Qed.

(** ** The listing URL and the constructor *)

Lemma construct_url_eq (st : State) :
  _construct_url st
  = (inr (url (this st) ++ "/artifactory/" ++ repo (this st) ++ "/" ++ group (this st)
          ++ "/" ++ artifact (this st) ++ "/" ++ version (this st)), st).
Proof.
  unfold _construct_url, bind, get_this, lift.
  rewrite format_listing_url, format_constructed.
  reflexivity.
Qed.

Section construction.

Variables (url' : string) (repo' group' artifact' version' username' password' : option string).
Variables (args : list string) (kwargs : list (string * string)) (w : World).

Let c0 : ArtifactoryPath :=
  built_client url' repo' group' artifact' version' username' password' args kwargs.

(** The constructor, by whether [kwargs] carries the key [auth]. *)
Lemma Artifactory_new_cases :
  Artifactory_new url' repo' group' artifact' version' username' password' args kwargs w
  = match PyStr.kw_lookup "auth" kwargs with
    | None =>
        (inr tt,
         {| this := built_instance url' repo' group' artifact' version'
                                   username' password' args kwargs;
            env := with_created c0 w |})
    | Some _ =>
        (inl (TypeError "auth"),
         {| this := unfinished_instance url' repo' group' artifact' version'
                                        username' password';
            env := w |})
    end.
Proof.
  unfold Artifactory_new, __init__, bind, update_this. cbv beta iota.
  rewrite construct_url_eq. unfold get_this, new_ArtifactoryPath.
  destruct (PyStr.kw_lookup "auth" kwargs); reflexivity.
Qed.

Lemma Artifactory_new_eq :
  PyStr.kw_lookup "auth" kwargs = None ->
  Artifactory_new url' repo' group' artifact' version' username' password' args kwargs w
  = (inr tt,
     {| this := built_instance url' repo' group' artifact' version' username' password'
                               args kwargs;
        env := with_created c0 w |}).
Proof. intros H. by rewrite Artifactory_new_cases, H. Qed.

End construction.

(** C6: the listing URL is the plain concatenation of the five fields in
    the fixed order, whatever the fields contain; the client created by the
    constructor (which it creates unless [kwargs] carries the key [auth]) is
    bound to that URL. *)
Theorem listing_url_is_interpolation :
  (forall st : State,
      _construct_url st
      = (inr (url (this st) ++ "/artifactory/" ++ repo (this st) ++ "/"
              ++ group (this st) ++ "/" ++ artifact (this st) ++ "/"
              ++ version (this st)), st))
  /\ (forall (url' repo' group' artifact' version' : string)
             (username' password' : option string)
             (args : list string) (kwargs : list (string * string)) (w : World),
         PyStr.kw_lookup "auth" kwargs = None ->
         path_url <$> client (this (snd (Artifactory_new url' (Some repo') (Some group')
                        (Some artifact') (Some version') username' password' args kwargs w)))
         = Some (url' ++ "/artifactory/" ++ repo' ++ "/" ++ group' ++ "/"
                 ++ artifact' ++ "/" ++ version'))
  /\ path_url <$> client (this (Demo.instance "v")) = Some "https://h/artifactory/r/g/a/v".
Proof.
  split; [exact construct_url_eq|]. split; [|reflexivity].
  intros. by rewrite Artifactory_new_eq.
Qed.

Lemma listing_url_is_interpolation_witness :
  PyStr.kw_lookup "auth" [("verify", "no")] = None
  /\ path_url <$> client (this (snd (Artifactory_new "https://h" (Some "r") (Some "g")
                     (Some "a") (Some "v") None None [] [("verify", "no")] Demo.world)))
     = Some ("https://h" ++ "/artifactory/" ++ "r" ++ "/" ++ "g" ++ "/" ++ "a" ++ "/" ++ "v").
Proof.
  split; [reflexivity|].
  apply (proj1 (proj2 listing_url_is_interpolation) "https://h" "r" "g" "a" "v"
           None None [] [("verify", "no")] Demo.world).
  reflexivity.
Defined.

(** Nothing is escaped and no slash is dropped or added: a field that
    already carries slashes, braces or spaces goes in as it is. *)
Example listing_url_verbatim :
  path_url <$> client (this (snd (Artifactory_new "https://h/" (Some "{r}") (Some "g/")
                 (Some "a b") (Some "/v") None None [] [] Demo.world)))
  = Some "https://h//artifactory/{r}/g//a b//v".
Proof. reflexivity. Qed.

(** C10: with [repo], [group], [artifact] and [version] left out, the
    listing URL is [url] followed by ["/artifactory////"]: the four
    separators are all there.  The client, created unless [kwargs] carries
    the key [auth], is bound to it. *)
Theorem listing_url_all_defaults
        (url' : string) (username' password' : option string)
        (args : list string) (kwargs : list (string * string)) (w : World) :
  let st := snd (Artifactory_new url' None None None None username' password'
                   args kwargs w) in
  _construct_url st = (inr (url' ++ "/artifactory////"), st)
  /\ (PyStr.kw_lookup "auth" kwargs = None ->
      path_url <$> client (this st) = Some (url' ++ "/artifactory////")).
Proof.
  intros st. subst st. rewrite Artifactory_new_cases. split.
  - rewrite construct_url_eq. by destruct (PyStr.kw_lookup "auth" kwargs).
  - by intros ->.
Qed.

Lemma listing_url_all_defaults_witness :
  PyStr.kw_lookup "auth" [("verify", "no")] = None
  /\ path_url <$> client (this (snd (Artifactory_new "https://h" None None None None
                     (Some "u") (Some "p") [] [("verify", "no")] Demo.world)))
     = Some ("https://h" ++ "/artifactory////").
Proof.
  split; [reflexivity|].
  apply (proj2 (listing_url_all_defaults "https://h" (Some "u") (Some "p") []
                  [("verify", "no")] Demo.world)).
  reflexivity.
Defined.

(** ** Download *)

Lemma download_split (n p : option string) (st : State) :
  download n p st = bind (select n) (store p) st.
Proof.
  unfold download, select, store, destination_dir, bind.
  destruct ((if os_path.is_empty (default "" n)
             then get_latest None else get_by_name (default "" n)) st)
    as [[e|a] st1]; [reflexivity|].
  unfold lift. rewrite format_downloading. reflexivity.
Qed.

(** [store], by whether the destination can be opened for writing. *)
Lemma store_eq (p : option string) (a : ArtifactEntry) (st : State) :
  let dest := os_path.join (destination_dir p) (name a) in
  let st1 := after_info ("Downloading artifact " ++ name a ++ " to " ++ dest) st in
  store p a st =
  if writable (env st) dest
  then (inr a, after_store dest (open a) st1)
  else (inl (OSError dest), st1).
Proof.
  intros dest st1. unfold store, bind, log_at, open_wb, write, update_env, ret.
  fold dest. simpl.
  destruct (writable (env st) dest); [|reflexivity].
  simpl. unfold after_store, with_file. simpl.
  rewrite lookup_insert_eq. simpl. rewrite insert_insert_eq. reflexivity.
Qed.

Lemma get_by_name_frame (x : string) (st : State) :
  selection_frame st (snd (get_by_name x st)).
Proof.
  destruct (client (this st)) as [c|] eqn:Hc.
  - rewrite (get_by_name_scan st c Hc).
    destruct (for_break _ _); split; simpl; try reflexivity; right; by exists c.
  - rewrite (get_by_name_no_client st x Hc). split; simpl; try reflexivity; by left.
Qed.

Lemma get_latest_frame (m : option string) (st : State) :
  selection_frame st (snd (get_latest m st)).
Proof.
  destruct (client (this st)) as [c|] eqn:Hc.
  - rewrite (get_latest_scan st c Hc).
    destruct (for_break _ _); split; simpl; try reflexivity; right; by exists c.
  - rewrite (get_latest_no_client st m Hc). split; simpl; try reflexivity; by left.
Qed.

Lemma select_frame (n : option string) (st : State) :
  selection_frame st (snd (select n st)).
Proof.
  unfold select. destruct (os_path.is_empty _);
    [apply get_latest_frame | apply get_by_name_frame].
Qed.

(** A [download] that returns went through a successful selection and a
    successful [open] of the destination. *)
Lemma download_returns (n p : option string) (st st' : State) (a : ArtifactEntry) :
  download n p st = (inr a, st') ->
  let dest := os_path.join (destination_dir p) (name a) in
  exists st1,
    select n st = (inr a, st1)
    /\ writable (env st1) dest = true
    /\ st' = after_store dest (open a)
               (after_info ("Downloading artifact " ++ name a ++ " to " ++ dest) st1).
Proof.
  intros Hd dest. rewrite download_split in Hd. unfold bind in Hd.
  destruct (select n st) as [[e|a0] st1]; [discriminate|].
  rewrite store_eq in Hd.
  destruct (writable (env st1) _) eqn:Hw; [|discriminate].
  injection Hd as -> <-. exists st1. by repeat split.
Qed.

Lemma get_by_name_returns_named (x : string) (st : State) (a : ArtifactEntry) :
  fst (get_by_name x st) = inr a -> name a = x.
Proof.
  destruct (client (this st)) as [c|] eqn:Hc.
  - rewrite (get_by_name_scan st c Hc).
    destruct (for_break (named x) _) as [b|] eqn:Hb; [|discriminate].
    simpl. intros [= <-].
    apply for_break_Some in Hb as (_ & _ & _ & Hb & _). by apply String.eqb_eq.
  - by rewrite (get_by_name_no_client st x Hc).
Qed.

(** C7: a [download] that returns has selected the entry it returns, and
    has stored that entry's bytes, and nothing else, at the join of the
    destination directory ([path], or ["/tmp"] when [path] is empty) with the
    entry's name, replacing whatever file was there. *)
Theorem download_stores_selected_entry
        (n p : option string) (st st' : State) (a : ArtifactEntry) :
  download n p st = (inr a, st') ->
  let dir := if os_path.is_empty (default "" p) then "/tmp" else default "" p in
  let dest := os_path.join dir (name a) in
  fst (select n st) = inr a
  /\ files (env st') = <[dest := open a]> (files (env st))
  /\ files (env st') !! dest = Some (open a).
Proof.
  intros Hd dir dest.
  fold TMP_DIR in dir. fold (destination_dir p) in dir.
  apply download_returns in Hd as (st1 & Hs & _ & ->).
  pose proof (select_frame n st) as Hf. rewrite Hs in Hf. simpl in Hf.
  rewrite Hs. simpl. rewrite (frame_files _ _ Hf).
  split; [reflexivity|]. split; [reflexivity|]. apply lookup_insert_eq.
Qed.

Lemma download_stores_selected_entry_witness :
  fst (select (Some "api.jar") (Demo.instance "v")) = inr Demo.jar_new
  /\ files (env (snd (download (Some "api.jar") (Some "/tmp/out") (Demo.instance "v"))))
     = <["/tmp/out/api.jar" := ["2"%byte]]> (files (env (Demo.instance "v")))
  /\ files (env (snd (download (Some "api.jar") (Some "/tmp/out") (Demo.instance "v"))))
       !! "/tmp/out/api.jar" = Some ["2"%byte].
Proof.
  apply (download_stores_selected_entry (Some "api.jar") (Some "/tmp/out")
           (Demo.instance "v")
           (snd (download (Some "api.jar") (Some "/tmp/out") (Demo.instance "v")))
           Demo.jar_new).
  vm_compute. reflexivity.
Defined.

(** The file that was at the destination before is replaced. *)
Example download_overwrites :
  files (env (Demo.instance "v")) !! "/tmp/out/api.jar" = Some ["0"%byte; "0"%byte]
  /\ files (env (snd (download (Some "api.jar") (Some "/tmp/out") (Demo.instance "v"))))
       !! "/tmp/out/api.jar" = Some ["2"%byte].
Proof. split; reflexivity. Qed.

(** C5: [download()] is [download(artifact_name="")]; both select as
    [get_latest] does with the MIME type ["application/java-archive"], and a
    non-empty [artifact_name] selects through [get_by_name]. *)
Theorem download_selection :
  (forall p st, download None p st = download (Some "") p st)
  /\ (forall p st,
         download (Some "") p st
         = bind (get_latest (Some "application/java-archive")) (store p) st)
  /\ (forall p st a st',
         download None p st = (inr a, st') ->
         fst (get_latest (Some "application/java-archive") st) = inr a)
  /\ (forall x p st,
         x <> "" -> download (Some x) p st = bind (get_by_name x) (store p) st).
Proof.
  split; [reflexivity|]. split; [intros; apply download_split|]. split.
  - intros p st a st' Hd.
    apply download_returns in Hd as (st1 & Hs & _). unfold select in Hs. simpl in Hs.
    change (fst (get_latest None st) = inr a). by rewrite Hs.
  - intros x p st Hx. rewrite download_split. unfold bind, select. simpl.
    apply is_empty_false in Hx. by rewrite Hx.
Qed.

Lemma download_selection_witness :
  "api.jar" <> ""
  /\ download (Some "api.jar") None (Demo.instance "v")
     = bind (get_by_name "api.jar") (store None) (Demo.instance "v").
Proof.
  split; [discriminate|].
  apply (proj2 (proj2 (proj2 download_selection)) "api.jar" None (Demo.instance "v")).
  discriminate.
Defined.

(** C9: [download("")] goes to [get_latest]; an entry with an empty name
    that [download] returns was therefore selected by [get_latest], never by
    [get_by_name], which [download] only enters with a non-empty name and
    which only returns an entry of that name. *)
Theorem download_empty_name_not_by_name :
  (forall p st, download (Some "") p st = bind (get_latest None) (store p) st)
  /\ (forall n p st a st',
         download n p st = (inr a, st') ->
         name a = "" ->
         default "" n = "" /\ fst (get_latest None st) = inr a)
  /\ (forall x p st a st',
         x <> "" -> download (Some x) p st = (inr a, st') -> name a = x).
Proof.
  split; [intros; apply download_split|]. split.
  - intros n p st a st' Hd Ha.
    apply download_returns in Hd as (st1 & Hs & _).
    unfold select in Hs.
    destruct (os_path.is_empty (default "" n)) eqn:He.
    + split; [by apply is_empty_true | by rewrite Hs].
    + apply is_empty_false in He. exfalso. apply He.
      assert (Hn : name a = default "" n).
      { apply (get_by_name_returns_named (default "" n) st). by rewrite Hs. }
      congruence.
  - intros x p st a st' Hx Hd.
    apply download_returns in Hd as (st1 & Hs & _).
    unfold select in Hs. simpl in Hs.
    apply is_empty_false in Hx. rewrite Hx in Hs.
    apply (get_by_name_returns_named x st). by rewrite Hs.
Qed.

Lemma download_empty_name_not_by_name_witness :
  default "" (Some "") = ""
  /\ fst (get_latest None (Demo.instance "odd")) = inr Demo.unnamed.
Proof.
  apply (proj1 (proj2 download_empty_name_not_by_name) (Some "") None
           (Demo.instance "odd") Demo.unnamed
           (snd (download (Some "") None (Demo.instance "odd"))));
    vm_compute; reflexivity.
Defined.

(** ** What calls leave unchanged *)

Lemma call_frame_refl (st : State) : call_frame st st.
Proof.
  split; try reflexivity. exists []. split; [reflexivity|].
  intros c Hc. by apply elem_of_nil in Hc.
Qed.

Lemma call_frame_trans (s1 s2 s3 : State) :
  call_frame s1 s2 -> call_frame s2 s3 -> call_frame s1 s3.
Proof.
  intros [Ht1 Hc1 (l1 & Hl1 & Hin1)] [Ht2 Hc2 (l2 & Hl2 & Hin2)].
  split; [congruence | congruence |].
  exists (l2 ++ l1)%list. split.
  - by rewrite Hl2, Hl1, app_assoc.
  - intros c Hc. apply elem_of_app in Hc as [Hc|Hc].
    + rewrite <- Ht1. by apply Hin2.
    + by apply Hin1.
Qed.

Lemma selection_call_frame (st st' : State) :
  selection_frame st st' -> call_frame st st'.
Proof.
  intros [Ht _ Hc _ _ Hl]. split; [done | done |].
  destruct Hl as [Hl | (c & Hcl & Hl)].
  - exists []. split; [done|]. intros c Hc'. by apply elem_of_nil in Hc'.
  - exists [c]. split; [done|]. intros c' Hc'.
    apply list_elem_of_singleton in Hc'. by subst.
Qed.

Lemma store_frame (p : option string) (a : ArtifactEntry) (st : State) :
  call_frame st (snd (store p a st)).
Proof.
  pose proof (store_eq p a st) as H. simpl in H. rewrite H.
  destruct (writable (env st) _); split; simpl; try reflexivity;
    (exists []; split; [reflexivity|]; intros c Hc; by apply elem_of_nil in Hc).
Qed.

Lemma download_frame (n p : option string) (st : State) :
  call_frame st (snd (download n p st)).
Proof.
  rewrite download_split. unfold bind.
  pose proof (selection_call_frame _ _ (select_frame n st)) as Hs.
  destruct (select n st) as [[e|a] st1]; [exact Hs|].
  eapply call_frame_trans; [exact Hs | apply store_frame].
Qed.

Lemma run_call_frame (op : call) (st : State) : call_frame st (run_call op st).
Proof.
  destruct op as [n p|x|m]; simpl.
  - apply download_frame.
  - apply selection_call_frame, get_by_name_frame.
  - apply selection_call_frame, get_latest_frame.
Qed.

Lemma run_calls_frame (ops : list call) (st : State) :
  call_frame st (run_calls ops st).
Proof.
  revert st. induction ops as [|op ops IH]; intros st; simpl.
  - apply call_frame_refl.
  - eapply call_frame_trans; [apply run_call_frame | apply IH].
Qed.

(** C8: the constructor, called with a [kwargs] that does not carry the key
    [auth] (with that key the client call raises and there is no instance),
    sets the seven attributes from its arguments and
    creates one client, bound to the listing URL and the credentials.  No
    sequence of [download], [get_by_name] and [get_latest] calls, returning
    or raising, changes an attribute or creates another client, and every
    enumeration such a sequence performs goes through that one client. *)
Theorem attributes_and_client_fixed
        (url' : string)
        (repo' group' artifact' version' username' password' : option string)
        (args : list string) (kwargs : list (string * string))
        (w : World) (ops : list call) :
  PyStr.kw_lookup "auth" kwargs = None ->
  let c0 := built_client url' repo' group' artifact' version' username' password'
                         args kwargs in
  let st0 := snd (Artifactory_new url' repo' group' artifact' version'
                                  username' password' args kwargs w) in
  let st := run_calls ops st0 in
  fst (Artifactory_new url' repo' group' artifact' version'
                       username' password' args kwargs w) = inr tt
  /\ this st0 = {| url := url'; repo := default "" repo'; group := default "" group';
                artifact := default "" artifact'; version := default "" version';
                username := default "" username'; password := default "" password';
                client := Some c0 |}
  /\ created (env st0) = c0 :: created w
  /\ this st = this st0
  /\ created (env st) = created (env st0)
  /\ exists l, listed (env st) = (l ++ listed w)%list /\ forall c, c ∈ l -> c = c0.
Proof.
  intros Hkw c0 st0 st.
  assert (H0 : st0 = {| this := built_instance url' repo' group' artifact' version'
                                  username' password' args kwargs;
                        env := with_created c0 w |}).
  { subst st0. by rewrite Artifactory_new_eq. }
  destruct (run_calls_frame ops st0) as [Ht Hc (l & Hl & Hin)]. fold st in Ht, Hc, Hl.
  split; [by rewrite Artifactory_new_eq|].
  split; [by rewrite H0|]. split; [by rewrite H0|].
  split; [exact Ht|]. split; [exact Hc|].
  exists l. split.
  - rewrite Hl, H0. reflexivity.
  - intros c Hcl. specialize (Hin c Hcl).
    assert (Hc0 : client (this st0) = Some c0) by (by rewrite H0).
    congruence.
Qed.

Lemma attributes_and_client_fixed_witness :
  PyStr.kw_lookup "auth" [("verify", "no")] = None
  /\ this (run_calls [GetLatest None; GetByName "nonexistent"]
             (snd (Artifactory_new "https://h" (Some "r") (Some "g") (Some "a") (Some "v")
                     (Some "u") (Some "p") [] [("verify", "no")] Demo.world)))
     = this (snd (Artifactory_new "https://h" (Some "r") (Some "g") (Some "a") (Some "v")
                    (Some "u") (Some "p") [] [("verify", "no")] Demo.world)).
Proof.
  split; [reflexivity|].
  apply (attributes_and_client_fixed "https://h" (Some "r") (Some "g") (Some "a")
           (Some "v") (Some "u") (Some "p") [] [("verify", "no")] Demo.world
           [GetLatest None; GetByName "nonexistent"]).
  reflexivity.
Defined.

(** Two calls on the sample instance: both enumerations went through the
    client made by the constructor. *)
Example two_calls_one_client :
  let st := run_calls [GetLatest None; Download (Some "api.jar") None] (Demo.instance "v") in
  listed (env st) = [Demo.client_of "v"; Demo.client_of "v"]
  /\ created (env st) = [Demo.client_of "v"]
  /\ this st = this (Demo.instance "v").
Proof. repeat split. Qed.

(** * Further properties of the methods *)

(** ** Failing downloads *)

(** X1: [download(name)] for a name the folder does not list raises the
    [Exception] of [get_by_name]; the folder has been enumerated once, and no
    record was logged and no file touched. *)
Theorem download_unknown_name
        (st : State) (c : ArtifactoryPath) (x : string) (p : option string) :
  client (this st) = Some c ->
  x <> "" ->
  (forall a, a ∈ remote (env st) c -> name a <> x) ->
  download (Some x) p st
  = (inl (Exception ("Artifact " ++ x ++ " not found.")), after_listing c st).
Proof.
  intros Hc Hx Hno.
  rewrite download_split. unfold bind, select.
  change (default "" (Some x)) with x.
  rewrite (proj2 (is_empty_false x) Hx).
  rewrite (get_by_name_scan st c Hc), for_break_rev_None; [done|].
  intros a Ha. apply String.eqb_neq. by apply Hno.
Qed.

Lemma download_unknown_name_witness :
  download (Some "api.war") None (Demo.instance "v")
  = (inl (Exception ("Artifact " ++ "api.war" ++ " not found.")),
     after_listing (Demo.client_of "v") (Demo.instance "v")).
Proof.
  apply (download_unknown_name (Demo.instance "v") (Demo.client_of "v") "api.war" None).
  - reflexivity.
  - discriminate.
  - intros a Ha. apply list_elem_of_In in Ha. simpl in Ha.
    destruct Ha as [<-|[<-|[<-|[<-|[]]]]]; discriminate.
Defined.

(** X2: [download()] on a folder with no entry of type
    ["application/java-archive"] raises the [UnboundLocalError] of
    [get_latest], whatever [path] is; no record was logged and no file
    touched. *)
Theorem download_latest_no_archive
        (st : State) (c : ArtifactoryPath) (p : option string) :
  client (this st) = Some c ->
  (forall a, a ∈ remote (env st) c -> mime_type (stat a) <> "application/java-archive") ->
  download None p st
  = (inl (UnboundLocalError "latest_artifact"), after_listing c st).
Proof.
  intros Hc Hno.
  rewrite download_split. unfold bind, select. simpl.
  by rewrite (get_latest_no_match st c None Hc Hno).
Qed.

Lemma download_latest_no_archive_witness :
  download None (Some "/tmp/out") (Demo.instance "empty")
  = (inl (UnboundLocalError "latest_artifact"),
     after_listing (Demo.client_of "empty") (Demo.instance "empty")).
Proof.
  apply (download_latest_no_archive (Demo.instance "empty") (Demo.client_of "empty")
           (Some "/tmp/out")).
  - reflexivity.
  - intros a Ha. apply list_elem_of_In in Ha. simpl in Ha.
    destruct Ha as [<-|[]]. discriminate.
Defined.

(** ** The effects of a download by name, in order *)

Section download_by_name.

Variables (st : State) (c : ArtifactoryPath) (p : option string).
Variables (pre post : list ArtifactEntry) (a : ArtifactEntry).
Hypothesis Hclient : client (this st) = Some c.
Hypothesis Hname : name a <> "".
Hypothesis Hlisting : remote (env st) c = (pre ++ a :: post)%list.
Hypothesis Hlast : forall b, b ∈ post -> name b <> name a.

Let dest : string := os_path.join (destination_dir p) (name a).
Let found : State := after_info ("Found artifact " ++ name a) (after_listing c st).
Let announced : State :=
  after_info ("Downloading artifact " ++ name a ++ " to " ++ dest) found.

Lemma download_by_name_store : download (Some (name a)) p st = store p a found.
Proof.
  rewrite download_split. unfold bind, select.
  change (default "" (Some (name a))) with (name a).
  rewrite (proj2 (is_empty_false (name a)) Hname).
  rewrite (get_by_name_scan st c Hclient), Hlisting, for_break_rev_last.
  - reflexivity.
  - unfold named. apply String.eqb_refl.
  - intros b Hb. apply String.eqb_neq. by apply Hlast.
Qed.


(** X4: When the destination cannot be opened, the download raises [OSError]
    for that path after both records were logged, and no file has changed. *)
Theorem download_unwritable :
  writable (env st) dest = false ->
  download (Some (name a)) p st = (inl (OSError dest), announced)
  /\ files (env announced) = files (env st).
Proof.
  intros Hw. rewrite download_by_name_store.
  pose proof (store_eq p a found) as H. simpl in H. rewrite H.
  fold dest. by rewrite Hw.
Qed.

End download_by_name.



Lemma download_unwritable_witness :
  download (Some (name Demo.jar_new)) (Some "/readonly") (Sample.instance "v")
  = (inl (OSError "/readonly/api.jar"),
     after_info "Downloading artifact api.jar to /readonly/api.jar"
       (after_info "Found artifact api.jar"
          (after_listing (Demo.client_of "v") (Sample.instance "v"))))
  /\ files (env (after_info "Downloading artifact api.jar to /readonly/api.jar"
                   (after_info "Found artifact api.jar"
                      (after_listing (Demo.client_of "v") (Sample.instance "v")))))
     = files (env (Sample.instance "v")).
Proof.
  apply (download_unwritable (Sample.instance "v") (Demo.client_of "v")
           (Some "/readonly") [Demo.pom] [] Demo.jar_new).
  - reflexivity.
  - discriminate.
  - reflexivity.
  - intros b Hb. apply list_elem_of_In in Hb. destruct Hb.
  - reflexivity.
Defined.

(** ** The constructor *)

(** X5: Creating an instance stays local, whether it returns or raises:
    nothing is enumerated, nothing is logged (the one message is at level
    DEBUG, below the root level), no file changes.  It returns when [kwargs]
    does not carry the key [auth], having created one client; with that key
    the client call raises [TypeError], no client is created and the
    attribute [client] is never assigned. *)
Theorem constructor_is_offline
        (url' : string)
        (repo' group' artifact' version' username' password' : option string)
        (args : list string) (kwargs : list (string * string)) (w : World) :
  let r := Artifactory_new url' repo' group' artifact' version' username' password'
                           args kwargs w in
  (listed (env (snd r)) = listed w
   /\ log_out (env (snd r)) = log_out w
   /\ files (env (snd r)) = files w
   /\ remote (env (snd r)) = remote w
   /\ writable (env (snd r)) = writable w)
  /\ (PyStr.kw_lookup "auth" kwargs = None ->
      fst r = inr tt
      /\ created (env (snd r))
         = built_client url' repo' group' artifact' version' username' password'
                        args kwargs :: created w)
  /\ (forall v, PyStr.kw_lookup "auth" kwargs = Some v ->
                fst r = inl (TypeError "auth")
                /\ client (this (snd r)) = None
                /\ created (env (snd r)) = created w).
Proof.
  intros r. subst r. rewrite Artifactory_new_cases.
  destruct (PyStr.kw_lookup "auth" kwargs) as [v0|]; by repeat split.
Qed.

Lemma constructor_is_offline_witness :
  fst (Artifactory_new "https://h" None None None None None None []
         [("auth", "x")] Demo.world) = inl (TypeError "auth")
  /\ client (this (snd (Artifactory_new "https://h" None None None None None None []
                         [("auth", "x")] Demo.world))) = None
  /\ created (env (snd (Artifactory_new "https://h" None None None None None None []
                          [("auth", "x")] Demo.world))) = created Demo.world.
Proof.
  apply (proj2 (proj2 (constructor_is_offline "https://h" None None None None None None
                         [] [("auth", "x")] Demo.world)) "x").
  reflexivity.
Defined.

(** ** Enumerations *)

Lemma run_call_enumerates (op : call) (st : State) (c : ArtifactoryPath) :
  client (this st) = Some c ->
  listed (env (run_call op st)) = c :: listed (env st)
  /\ this (run_call op st) = this st
  /\ remote (env (run_call op st)) = remote (env st).
Proof.
  intros Hc. destruct op as [n p|x|m]; simpl.
  - rewrite download_split. unfold bind, select.
    destruct (os_path.is_empty (default "" n)).
    + rewrite (get_latest_scan st c Hc). destruct (for_break _ _) as [a|]; [|done].
      pose proof (store_eq p a (after_info ("Found latest artifact " ++ name a)
                                  (after_listing c st))) as H.
      simpl in H. rewrite H. by destruct (writable _ _).
    + rewrite (get_by_name_scan st c Hc). destruct (for_break _ _) as [a|]; [|done].
      pose proof (store_eq p a (after_info ("Found artifact " ++ name a)
                                  (after_listing c st))) as H.
      simpl in H. rewrite H. by destruct (writable _ _).
  - rewrite (get_by_name_scan st c Hc). by destruct (for_break _ _).
  - rewrite (get_latest_scan st c Hc). by destruct (for_break _ _).
Qed.

Lemma replicate_app_cons {A} (n : nat) (x : A) (l : list A) :
  (replicate n x ++ x :: l)%list = x :: (replicate n x ++ l)%list.
Proof. induction n as [|n IH]; simpl; [done | by rewrite IH]. Qed.

(** X6: Nothing is cached: every call, returning or raising, enumerates the
    folder exactly once, so a sequence of calls performs as many
    enumerations as it has calls, all through the instance's client. *)
Theorem one_enumeration_per_call
        (ops : list call) (st : State) (c : ArtifactoryPath) :
  client (this st) = Some c ->
  listed (env (run_calls ops st)) = (replicate (length ops) c ++ listed (env st))%list.
Proof.
  revert st. induction ops as [|op ops IH]; intros st Hc; [reflexivity|].
  destruct (run_call_enumerates op st c Hc) as (Hl & Ht & _).
  simpl. rewrite IH by (by rewrite Ht). rewrite Hl.
  apply replicate_app_cons.
Qed.

Lemma one_enumeration_per_call_witness :
  listed (env (run_calls [GetLatest None; GetByName "nonexistent"; Download None None]
                 (Demo.instance "v")))
  = (replicate 3 (Demo.client_of "v") ++ listed (env (Demo.instance "v")))%list.
Proof.
  apply (one_enumeration_per_call
           [GetLatest None; GetByName "nonexistent"; Download None None]
           (Demo.instance "v") (Demo.client_of "v")).
  reflexivity.
Defined.

(** ** What ends up on disk *)

Lemma for_break_elem {A} (cond : A -> bool) (xs : list A) (x : A) :
  for_break cond xs = Some x -> x ∈ xs /\ cond x = true.
Proof.
  intros H. apply for_break_Some in H as (pre & post & -> & Hx & _).
  split; [|done]. apply elem_of_app. right. apply list_elem_of_here.
Qed.

Lemma elem_of_rev {A} (x : A) (l : list A) : x ∈ rev l <-> x ∈ l.
Proof. rewrite !list_elem_of_In. symmetry. apply in_rev. Qed.

Lemma select_returns_member
      (n : option string) (st st1 : State) (c : ArtifactoryPath) (a : ArtifactEntry) :
  client (this st) = Some c ->
  select n st = (inr a, st1) -> a ∈ remote (env st) c.
Proof.
  intros Hc. unfold select. destruct (os_path.is_empty _).
  - rewrite (get_latest_scan st c Hc).
    destruct (for_break _ _) as [b|] eqn:Hb; [|discriminate].
    intros [= <- _]. apply for_break_elem in Hb as [Hb _]. by apply elem_of_rev.
  - rewrite (get_by_name_scan st c Hc).
    destruct (for_break _ _) as [b|] eqn:Hb; [|discriminate].
    intros [= <- _]. apply for_break_elem in Hb as [Hb _]. by apply elem_of_rev.
Qed.

Lemma run_call_files (op : call) (st : State) (c : ArtifactoryPath) :
  client (this st) = Some c ->
  files (env (run_call op st)) = files (env st)
  \/ exists a dest, a ∈ remote (env st) c
                    /\ files (env (run_call op st)) = <[dest := open a]> (files (env st)).
Proof.
  intros Hc. destruct op as [n p|x|m]; simpl.
  - rewrite download_split. unfold bind.
    pose proof (select_frame n st) as Hf.
    destruct (select n st) as [[e|a] st1] eqn:Hs; simpl in Hf.
    + left. apply (frame_files _ _ Hf).
    + pose proof (store_eq p a st1) as H. simpl in H. rewrite H.
      destruct (writable (env st1) _); simpl.
      * right. exists a, (os_path.join (destination_dir p) (name a)).
        split; [by eapply select_returns_member|].
        by rewrite (frame_files _ _ Hf).
      * left. apply (frame_files _ _ Hf).
  - left. apply (frame_files _ _ (get_by_name_frame x st)).
  - left. apply (frame_files _ _ (get_latest_frame m st)).
Qed.

(** X7: After a sequence of calls in which every [download] returns
    ([get_by_name] and [get_latest] may return or raise), a local path either
    holds what it held before or the complete bytes of an entry of the
    folder; in particular no file has gone.  A [download] that raises is left
    out: the read of the remote stream, which the code performs after it has
    truncated the destination, is taken here to succeed. *)
Theorem files_hold_listed_bytes
        (ops : list call) (st : State) (c : ArtifactoryPath) (q : string) :
  client (this st) = Some c ->
  downloads_return ops st = true ->
  (files (env (run_calls ops st)) !! q = files (env st) !! q
   \/ exists a, a ∈ remote (env st) c
                /\ files (env (run_calls ops st)) !! q = Some (open a))
  /\ (is_Some (files (env st) !! q) -> is_Some (files (env (run_calls ops st)) !! q)).
Proof.
  intros Hc _.
  assert (H : files (env (run_calls ops st)) !! q = files (env st) !! q
              \/ exists a, a ∈ remote (env st) c
                           /\ files (env (run_calls ops st)) !! q = Some (open a)).
  { revert st Hc. induction ops as [|op ops IH]; intros st Hc; [by left|].
    destruct (run_call_enumerates op st c Hc) as (_ & Ht & Hr).
    simpl. destruct (IH (run_call op st)) as [IH'|(a & Ha & IH')]; [by rewrite Ht| |].
    - rewrite IH'.
      destruct (run_call_files op st c Hc) as [->|(a & dest & Ha & ->)]; [by left|].
      destruct (decide (dest = q)) as [->|Hne].
      + right. exists a. split; [done|]. apply lookup_insert_eq.
      + left. by apply lookup_insert_ne.
    - right. exists a. split; [by rewrite <- Hr | done]. }
  split; [exact H|].
  intros Hq. destruct H as [->|(a & _ & ->)]; [done | by eexists].
Qed.

Lemma files_hold_listed_bytes_witness :
  (files (env (run_calls [Download None (Some "/tmp/out"); GetByName "api.pom"]
                 (Demo.instance "v"))) !! "/tmp/out/api.jar"
   = files (env (Demo.instance "v")) !! "/tmp/out/api.jar"
   \/ exists a, a ∈ remote (env (Demo.instance "v")) (Demo.client_of "v")
                /\ files (env (run_calls [Download None (Some "/tmp/out");
                                          GetByName "api.pom"]
                                 (Demo.instance "v"))) !! "/tmp/out/api.jar"
                   = Some (open a))
  /\ (is_Some (files (env (Demo.instance "v")) !! "/tmp/out/api.jar") ->
      is_Some (files (env (run_calls [Download None (Some "/tmp/out");
                                      GetByName "api.pom"]
                             (Demo.instance "v"))) !! "/tmp/out/api.jar")).
Proof.
  apply (files_hold_listed_bytes [Download None (Some "/tmp/out"); GetByName "api.pom"]
           (Demo.instance "v") (Demo.client_of "v") "/tmp/out/api.jar").
  - reflexivity.
  - vm_compute. reflexivity.
Defined.

(** ** Repeating a download *)




(** ** Folders whose names are unique *)

Lemma unique_by_name (l : list ArtifactEntry) (a b : ArtifactEntry) :
  NoDup (name <$> l) -> a ∈ l -> b ∈ l -> name a = name b -> a = b.
Proof.
  induction l as [|y l IH]; intros Hnd Ha Hb Hab.
  - by apply elem_of_nil in Ha.
  - rewrite fmap_cons in Hnd. apply NoDup_cons in Hnd as [Hy Hnd].
    apply elem_of_cons in Ha as [->|Ha]; apply elem_of_cons in Hb as [->|Hb].
    + reflexivity.
    + exfalso. apply Hy. apply list_elem_of_fmap. by exists b.
    + exfalso. apply Hy. apply list_elem_of_fmap. by exists a.
    + by apply IH.
Qed.

(** The scan by name finds something exactly when the name is listed. *)
Lemma scan_named (x : string) (l : list ArtifactEntry) :
  match for_break (named x) (rev l) with
  | Some a => a ∈ l /\ name a = x
  | None => forall b, b ∈ l -> name b <> x
  end.
Proof.
  destruct (for_break (named x) (rev l)) as [a|] eqn:H.
  - apply for_break_elem in H as [Ha Hx]. split; [by apply elem_of_rev|].
    by apply String.eqb_eq.
  - intros b Hb. apply String.eqb_neq.
    apply (proj1 (for_break_None (named x) (rev l)) H). by apply elem_of_rev.
Qed.

(** X9: When no two entries of a folder share a name, [get_by_name] does not
    depend on the order in which the server lists them: on two listings that
    are permutations of each other it returns the same entry or raises the
    same exception. *)
Theorem get_by_name_order_independent
        (st1 st2 : State) (c1 c2 : ArtifactoryPath) (x : string) :
  client (this st1) = Some c1 ->
  client (this st2) = Some c2 ->
  remote (env st1) c1 ≡ₚ remote (env st2) c2 ->
  NoDup (name <$> remote (env st1) c1) ->
  fst (get_by_name x st1) = fst (get_by_name x st2).
Proof.
  intros Hc1 Hc2 Hp Hnd.
  rewrite (get_by_name_scan st1 c1 Hc1), (get_by_name_scan st2 c2 Hc2).
  pose proof (scan_named x (remote (env st1) c1)) as H1.
  pose proof (scan_named x (remote (env st2) c2)) as H2.
  destruct (for_break (named x) (rev (remote (env st1) c1))) as [a|];
    destruct (for_break (named x) (rev (remote (env st2) c2))) as [b|]; simpl.
  - destruct H1 as [Ha Hax], H2 as [Hb Hbx]. f_equal.
    apply (unique_by_name (remote (env st1) c1)); [done | done | | congruence].
    by rewrite Hp.
  - destruct H1 as [Ha Hax]. exfalso. apply (H2 a); [by rewrite <- Hp | done].
  - destruct H2 as [Hb Hbx]. exfalso. apply (H1 b); [by rewrite Hp | done].
  - reflexivity.
Qed.

Lemma get_by_name_order_independent_witness :
  fst (get_by_name "api.jar" (Demo.instance "odd"))
  = fst (get_by_name "api.jar" (Sample.instance "odd")).
Proof.
  apply (get_by_name_order_independent (Demo.instance "odd") (Sample.instance "odd")
           (Demo.client_of "odd") (Demo.client_of "odd") "api.jar").
  - reflexivity.
  - reflexivity.
  - apply perm_swap.
  - apply NoDup_cons. split.
    + intros H. apply list_elem_of_In in H. simpl in H. destruct H as [H|[]].
      discriminate.
    + apply NoDup_cons. split; [|apply NoDup_nil_2].
      intros H. apply list_elem_of_In in H. destruct H.
Defined.

(** With names shared the order matters: the two builds of the sample
    folder carry one name, and the one listed later is returned. *)
Example get_by_name_order_matters_on_shared_names :
  fst (get_by_name "api.jar" (Demo.instance "v")) = inr Demo.jar_new
  /\ Demo.jar_old ∈ remote (env (Demo.instance "v")) (Demo.client_of "v")
  /\ name Demo.jar_old = "api.jar".
Proof.
  split; [reflexivity|]. split; [|reflexivity].
  apply list_elem_of_In. simpl. auto.
Qed.

(** X10: In a folder with unique names, the name of the entry that [get_latest]
    returned fetches that very entry through [get_by_name]. *)
Theorem latest_then_by_name
        (m : option string) (st st1 : State) (a : ArtifactEntry) :
  get_latest m st = (inr a, st1) ->
  (forall c, client (this st) = Some c -> NoDup (name <$> remote (env st) c)) ->
  fst (get_by_name (name a) st1) = inr a.
Proof.
  intros Hg Hnd.
  destruct (client (this st)) as [c|] eqn:Hc;
    [|by rewrite (get_latest_no_client st m Hc) in Hg].
  specialize (Hnd c eq_refl).
  rewrite (get_latest_scan st c Hc) in Hg.
  destruct (for_break _ _) as [a0|] eqn:Ha; [|discriminate].
  injection Hg as -> <-.
  apply for_break_elem in Ha as [Ha _]. apply (proj1 (elem_of_rev _ _)) in Ha.
  rewrite (get_by_name_scan _ c) by done. simpl.
  pose proof (scan_named (name a) (remote (env st) c)) as H.
  destruct (for_break (named (name a)) (rev (remote (env st) c))) as [b|]; simpl.
  - destruct H as [Hb Hba]. f_equal.
    by apply (unique_by_name (remote (env st) c)).
  - exfalso. by apply (H a).
Qed.

Lemma latest_then_by_name_witness :
  fst (get_by_name (name Demo.jar_new) (snd (get_latest None (Sample.instance "v"))))
  = inr Demo.jar_new.
Proof.
  apply (latest_then_by_name None (Sample.instance "v")
           (snd (get_latest None (Sample.instance "v"))) Demo.jar_new).
  - vm_compute. reflexivity.
  - intros c [= <-]. apply NoDup_cons. split.
    + intros H. apply list_elem_of_In in H. simpl in H. destruct H as [H|[]].
      discriminate.
    + apply NoDup_cons. split; [|apply NoDup_nil_2].
      intros H. apply list_elem_of_In in H. destruct H.
Defined.

(** ** Where the file goes *)

Lemma destination_dir_nonempty (p : option string) :
  os_path.is_empty (destination_dir p) = false.
Proof.
  unfold destination_dir. destruct (os_path.is_empty (default "" p)) eqn:H; [reflexivity|].
  exact H.
Qed.

Lemma download_files (n p : option string) (st st' : State) (a : ArtifactEntry) :
  download n p st = (inr a, st') ->
  files (env st')
  = <[os_path.join (destination_dir p) (name a) := open a]> (files (env st)).
Proof.
  intros Hd. apply download_returns in Hd as (st1 & Hs & _ & ->).
  pose proof (select_frame n st) as Hf. rewrite Hs in Hf. simpl in Hf.
  simpl. by rewrite (frame_files _ _ Hf).
Qed.

(** X11: An entry whose name begins with a slash is written at that name: the
    destination directory, given or default, plays no part. *)
Theorem download_absolute_name
        (n p : option string) (st st' : State) (a : ArtifactEntry) :
  download n p st = (inr a, st') ->
  os_path.startswith_sep (name a) = true ->
  files (env st') = <[name a := open a]> (files (env st)).
Proof.
  intros Hd Habs. rewrite (download_files n p st st' a Hd).
  unfold os_path.join. by rewrite Habs.
Qed.

Lemma download_absolute_name_witness :
  files (env (snd (download None (Some "/tmp/out") (Sample.instance "abs"))))
  = <[name Sample.absolute := open Sample.absolute]>
      (files (env (Sample.instance "abs"))).
Proof.
  apply (download_absolute_name None (Some "/tmp/out") (Sample.instance "abs")
           (snd (download None (Some "/tmp/out") (Sample.instance "abs")))
           Sample.absolute).
  - vm_compute. reflexivity.
  - reflexivity.
Defined.

(** X12: An entry whose name does not begin with a slash is written under the
    destination directory, the directory and the name being separated by
    exactly one slash: one is inserted unless the directory ends in one. *)
Theorem download_relative_name
        (n p : option string) (st st' : State) (a : ArtifactEntry) :
  download n p st = (inr a, st') ->
  os_path.startswith_sep (name a) = false ->
  let dir := destination_dir p in
  let sep := if os_path.endswith_sep dir then "" else "/" in
  files (env st') = <[dir ++ sep ++ name a := open a]> (files (env st)).
Proof.
  intros Hd Hrel dir sep. rewrite (download_files n p st st' a Hd).
  unfold os_path.join. rewrite Hrel, destination_dir_nonempty. fold dir. subst sep.
  by destruct (os_path.endswith_sep dir).
Qed.

Lemma download_relative_name_witness :
  files (env (snd (download (Some "api.pom") (Some "/tmp/out/") (Demo.instance "v"))))
  = <["/tmp/out/" ++ "" ++ name Demo.pom := open Demo.pom]>
      (files (env (Demo.instance "v"))).
Proof.
  apply (download_relative_name (Some "api.pom") (Some "/tmp/out/") (Demo.instance "v")
           (snd (download (Some "api.pom") (Some "/tmp/out/") (Demo.instance "v")))
           Demo.pom).
  - vm_compute. reflexivity.
  - reflexivity.
Defined.
